(** * waypoint_updater.py: a shallow embedding of the waypoint updater node

    Floating-point values of the node are modelled as real numbers.  Python
    objects that are shared by reference (the [Waypoint] messages of the
    track) live in an object store [objects : nat -> waypoint]; a Python list
    of waypoints is a list of references into that store, so that the shallow
    copy [self.waypoints[:]] shares the waypoint objects with the original. *)

From Stdlib Require Import List Arith Lia ZArith Reals Lra.
Import ListNotations.
Open Scope R_scope.

(** ** Data model *)

(** [geometry_msgs/Point]. *)
Record point := mkpoint { x : R; y : R; z : R }.

(** A [styx_msgs/Waypoint], restricted to the two fields this node reads
    or writes: [pose.pose.position] and [twist.twist.linear.x]. *)
Record waypoint := mkwaypoint {
  wp_position : point;
  wp_velocity : R
}.

(** The object store: a reference to each waypoint object. *)
Definition store := nat -> waypoint.

(** Python exceptions that the node can raise. *)
Inductive exn :=
| IndexError
| TypeError
| AttributeError.

(** Messages published by the node, in publication order.  A published
    [Lane] is serialized when [publish] is called, so it carries the
    waypoint values of that moment. *)
Inductive message :=
| StopLineWaypoint (idx : nat)
| FinalWaypoints (lane : list waypoint).

(** The fields of [WaypointUpdater] that the callbacks read and write.
    [current_traffic_light] holds the [state] of the last [TrafficLight]
    message, [None] for Python's [None]. *)
Record updater := mkupdater {
  waypoints : option (list nat);
  objects : store;
  current_velocity : R;
  current_traffic_light : option Z;
  current_pose : option point
}.

Definition set_objects (st : updater) (h : store) : updater :=
  mkupdater (waypoints st) h (current_velocity st) (current_traffic_light st)
            (current_pose st).

Definition set_current_traffic_light (st : updater) (l : option Z) : updater :=
  mkupdater (waypoints st) (objects st) (current_velocity st) l
            (current_pose st).

Definition set_current_pose (st : updater) (p : point) : updater :=
  mkupdater (waypoints st) (objects st) (current_velocity st)
            (current_traffic_light st) (Some p).

(** Outcome of one callback: the state afterwards (mutations made before an
    exception persist), the messages published, and the exception raised. *)
Record outcome := mkoutcome {
  after : updater;
  published : list message;
  raised : option exn
}.

(** ** Helpers of the node *)

(** [dl = lambda a, b: math.sqrt((a.x-b.x)**2 + (a.y-b.y)**2 + (a.z-b.z)**2)] *)
Definition dl (a b : point) : R :=
  sqrt ((x a - x b) ^ 2 + (y a - y b) ^ 2 + (z a - z b) ^ 2).

(** The loop of [distance]: [for i in range(wp1, wp2+1)], [n] iterations
    left, [i] the loop variable, [dist] the accumulator.  A list index out of
    range raises [IndexError] ([None]). *)
Fixpoint dist_loop (h : store) (ws : list nat) (wp1 i n : nat) (dist : R)
  : option R :=
  match n with
  | O => Some dist
  | S n' =>
      match nth_error ws wp1, nth_error ws i with
      | Some r1, Some r2 =>
          dist_loop h ws i (S i) n'
            (dist + dl (wp_position (h r1)) (wp_position (h r2)))
      | _, _ => None
      end
  end.

(** [def distance(self, waypoints, wp1, wp2)]. *)
Definition distance (h : store) (ws : list nat) (wp1 wp2 : nat) : option R :=
  dist_loop h ws wp1 wp1 (S wp2 - wp1) 0.

(** [waypoints[waypoint].twist.twist.linear.x = velocity]: writes into the
    waypoint object referenced by the list, not into the list. *)
Definition set_waypoint_velocity (h : store) (ws : list nat) (wp : nat)
  (velocity : R) : option store :=
  match nth_error ws wp with
  | Some r =>
      Some (fun r' => if Nat.eqb r' r
                      then mkwaypoint (wp_position (h r)) velocity
                      else h r')
  | None => None
  end.

(** [int(v)] and [int(math.floor(v))] for a non-negative float [v]: both
    round down. *)
Definition py_int (v : R) : nat := Z.to_nat (Int_part v).

(** [np.linspace(start, stop, num)] with [endpoint=True]: [num] samples,
    [start + k * step] with [step = (stop - start) / (num - 1)], the last one
    set to [stop]; [[start]] when [num = 1] and empty when [num = 0]. *)
Definition linspace (start stop : R) (num : nat) : list R :=
  match num with
  | O => []
  | S O => [start]
  | S m =>
      map (fun k => start + INR k * ((stop - start) / INR m)) (seq 0 m)
        ++ [stop]
  end.

Definition VEL_THRESHOLD : R := 5.

(** The ramp [distribution] of [set_velocity_leading_to_stop_point]. *)
Definition distribution_of (current_velocity : R) (total_distance : nat)
  : list R :=
  if Rlt_dec current_velocity VEL_THRESHOLD then
    linspace current_velocity VEL_THRESHOLD total_distance
      ++ linspace VEL_THRESHOLD 0 total_distance
  else linspace current_velocity 0 total_distance.

(** [distances = [self.distance(new_waypoints, i, i+1) for i in range(i, i+n)]] *)
Fixpoint distances_from (h : store) (ws : list nat) (i n : nat)
  : option (list R) :=
  match n with
  | O => Some []
  | S n' =>
      match distance h ws i (S i) with
      | Some d => option_map (cons d) (distances_from h ws (S i) n')
      | None => None
      end
  end.

(** [total_distance = int(math.floor(sum(distances)))] *)
Definition total_distance (distances : list R) : nat :=
  py_int (fold_left Rplus distances 0).

(** The loop [for wp_idx in range(...)] of
    [set_velocity_leading_to_stop_point], [n] iterations left.  Writes made
    before an exception stay in the store.  (The list [velocities] it builds
    is never read and is left out.) *)
Fixpoint assign_loop (h : store) (ws : list nat) (distribution distances : list R)
  (wp_idx dist_idx n : nat) : store * option exn :=
  match n with
  | O => (h, None)
  | S n' =>
      match nth_error distances dist_idx with
      | None => (h, Some IndexError)
      | Some d =>
          match nth_error distribution (py_int d) with
          | None => (h, Some IndexError)
          | Some velocity =>
              match set_waypoint_velocity h ws wp_idx velocity with
              | None => (h, Some IndexError)
              | Some h' =>
                  assign_loop h' ws distribution distances (S wp_idx)
                    (S dist_idx) n'
              end
          end
      end
  end.

(** [def set_velocity_leading_to_stop_point(self, current_pose_wp_idx,
    stop_point_idx)].  [new_waypoints = self.waypoints[:]] is a new list
    holding the same references. *)
Definition set_velocity_leading_to_stop_point (st : updater)
  (current_pose_wp_idx stop_point_idx : nat) : updater * (exn + list nat) :=
  match waypoints st with
  | None => (st, inl TypeError)
  | Some ws =>
      let new_waypoints := ws in
      match distances_from (objects st) new_waypoints current_pose_wp_idx
              (S stop_point_idx - current_pose_wp_idx) with
      | None => (st, inl IndexError)
      | Some distances =>
          let distribution :=
            distribution_of (current_velocity st) (total_distance distances) in
          let (h', e) :=
            assign_loop (objects st) new_waypoints distribution distances
              (S current_pose_wp_idx) 0
              (S stop_point_idx - S current_pose_wp_idx) in
          (set_objects st h',
           match e with
           | None => inr new_waypoints
           | Some e => inl e
           end)
      end
  end.

Definition LOOKAHEAD_WPS : nat := 200.

(** [self.current_traffic_light is not None and (state == 0 or state == 1)] *)
Definition red_or_yellow (l : option Z) : bool :=
  match l with
  | Some s => (Z.eqb s 0 || Z.eqb s 1)%bool
  | None => false
  end.

(** [rospy.error('...')]: the module [rospy] has no attribute [error] (its
    error logger is [rospy.logerr], used at the bottom of this file), so the
    call raises [AttributeError]. *)
Definition rospy_error (st : updater) : outcome :=
  mkoutcome st [] (Some AttributeError).

(** [def pose_cb(self, pose)].  [closest_wp_idx] and
    [stop_line_waypoint_idx] are the results of
    [helper.next_waypoint_index_kdtree] (module [waypoint_lib.helper]) for the
    pose and for the nearest stop line; they are taken as arguments, so every
    statement below holds whatever indices the helper returns. *)
Definition pose_cb (st : updater) (pose : point)
  (closest_wp_idx stop_line_waypoint_idx : nat) : outcome :=
  match waypoints st with
  | None => rospy_error st
  | Some ws =>
      let st1 := set_current_pose st pose in
      let pub := [StopLineWaypoint stop_line_waypoint_idx] in
      let (st2, r) :=
        if red_or_yellow (current_traffic_light st1)
        then set_velocity_leading_to_stop_point st1 closest_wp_idx
               stop_line_waypoint_idx
        else (st1, inr ws) in
      match r with
      | inl e => mkoutcome st2 pub (Some e)
      | inr new_waypoints =>
          let next_wps := firstn LOOKAHEAD_WPS (skipn closest_wp_idx new_waypoints) in
          let st3 := set_current_traffic_light st2 None in
          mkoutcome st3 (pub ++ [FinalWaypoints (map (objects st3) next_wps)]) None
      end
  end.

(** [def upcoming_traffic_light_cb(self, msg)]. *)
Definition upcoming_traffic_light_cb (st : updater) (state : Z) : updater :=
  set_current_traffic_light st (Some state).

(** [def current_velocity_cb(self, curr_vel_msg)]. *)
Definition current_velocity_cb (st : updater) (v : R) : updater :=
  mkupdater (waypoints st) (objects st) v (current_traffic_light st)
            (current_pose st).

(** ** Example tracks *)

(** A straight track along the x axis, one unit between waypoints, all at
    speed 10; the waypoint object [r] sits at x = r. *)
Definition track_point (r : nat) : waypoint :=
  mkwaypoint (mkpoint (IZR (Z.of_nat r)) 0 0) 10.

Definition track5 : list nat := [0; 1; 2; 3; 4]%nat.

(** The track loaded, speed 8, last traffic light RED (state 0). *)
Definition st_red8 : updater :=
  mkupdater (Some track5) track_point 8 (Some 0%Z) None.




(** A track with a longer first segment: x = 0, 2, 3, 4. *)
Definition gap_point (r : nat) : waypoint :=
  mkwaypoint (mkpoint (match r with O => 0 | S _ => IZR (Z.of_nat (S r)) end) 0 0) 10.

Definition gap4 : list nat := [0; 1; 2; 3]%nat.

(** The track loaded, speed 6, last traffic light RED. *)
Definition st_gap6 : updater :=
  mkupdater (Some gap4) gap_point 6 (Some 0%Z) None.

(** A track whose waypoints all sit at the origin. *)
Definition origin_point (r : nat) : waypoint :=
  mkwaypoint (mkpoint 0 0 0) 10.

Definition track3 : list nat := [0; 1; 2]%nat.

Definition st_origin : updater :=
  mkupdater (Some track3) origin_point 8 (Some 0%Z) None.

Definition st_unloaded : updater :=
  mkupdater None track_point 0 None None.

Definition pose0 : point := mkpoint 0 0 0.

(** ** General lemmas *)

Lemma dl_refl (p : point) : dl p p = 0.
Proof.
  unfold dl. rewrite !Rminus_diag. simpl. rewrite !Rmult_0_l, !Rplus_0_l.
  apply sqrt_0.
Qed.

Lemma dl_axis (a b : Z) :
  dl (mkpoint (IZR a) 0 0) (mkpoint (IZR b) 0 0) = IZR (Z.abs (a - b)).
Proof.
  unfold dl; cbn [x y z].
  rewrite abs_IZR, minus_IZR, <- sqrt_Rsqr_abs, Rsqr_pow2.
  f_equal. ring.
Qed.

Lemma Int_part_IZR (k : Z) : Int_part (IZR k) = k.
Proof.
  unfold Int_part.
  rewrite <- (tech_up (IZR k) (k + 1)); [lia | |];
    rewrite plus_IZR; lra.
Qed.

Lemma py_int_IZR (k : Z) : py_int (IZR k) = Z.to_nat k.
Proof. unfold py_int. now rewrite Int_part_IZR. Qed.

Lemma Int_part_small (v : R) : 0 <= v < 1 -> Int_part v = 0%Z.
Proof.
  intros Hv. unfold Int_part.
  rewrite <- (tech_up v 1); [lia | |]; simpl; lra.
Qed.

(** The accumulator of [dist_loop] is only added to. *)
Lemma dist_loop_acc h ws wp1 i n dist :
  dist_loop h ws wp1 i n dist =
  option_map (Rplus dist) (dist_loop h ws wp1 i n 0).
Proof.
  revert wp1 i dist. induction n as [|n IH]; intros wp1 i dist; simpl.
  - now rewrite Rplus_0_r.
  - destruct (nth_error ws wp1), (nth_error ws i); try reflexivity.
    rewrite IH, (IH _ _ (0 + _)).
    destruct (dist_loop h ws i (S i) n 0); simpl; f_equal; ring.
Qed.

(** Running the loop for [n + m] steps is running it for [n] steps and then
    for [m] more from where it stopped. *)
Lemma dist_loop_split h ws i n m dist :
  dist_loop h ws i (S i) (n + m) dist =
  match dist_loop h ws i (S i) n dist with
  | Some d => dist_loop h ws (i + n) (S (i + n)) m d
  | None => None
  end.
Proof.
  revert i dist. induction n as [|n IH]; intros i dist; cbn [dist_loop Nat.add].
  - now rewrite Nat.add_0_r.
  - destruct (nth_error ws i), (nth_error ws (S i)); try reflexivity.
    rewrite IH. now rewrite Nat.add_succ_r.
Qed.

Lemma dist_loop_some h ws wp1 i n dist :
  (wp1 < length ws)%nat -> (i + n <= length ws)%nat ->
  exists d, dist_loop h ws wp1 i n dist = Some d.
Proof.
  revert wp1 i dist. induction n as [|n IH]; intros wp1 i dist H1 H2; simpl.
  - eauto.
  - destruct (nth_error ws wp1) eqn:E1;
      [|apply nth_error_None in E1; lia].
    destruct (nth_error ws i) eqn:E2;
      [|apply nth_error_None in E2; lia].
    apply IH; lia.
Qed.

(** [distance] from [i] to [k], [i <= k], after its first (zero) step. *)
Lemma distance_step h ws i k :
  (i <= k)%nat -> (i < length ws)%nat ->
  distance h ws i k = dist_loop h ws i (S i) (k - i) 0.
Proof.
  intros Hik Hi. unfold distance.
  replace (S k - i)%nat with (S (k - i)) by lia. simpl.
  destruct (nth_error ws i) eqn:E; [|apply nth_error_None in E; lia].
  rewrite dl_refl, Rplus_0_l. reflexivity.
Qed.

(** Every sample of [np.linspace] between two non-negative end points lies
    between 0 and the larger end point. *)
Lemma linspace_bounds a b n w :
  0 <= a -> 0 <= b -> In w (linspace a b n) -> 0 <= w <= Rmax a b.
Proof.
  intros Ha Hb H. pose proof (Rmax_l a b). pose proof (Rmax_r a b).
  unfold linspace in H. destruct n as [|[|m]].
  - destruct H.
  - destruct H as [<-|[]]. lra.
  - apply in_app_or in H. destruct H as [H|[<-|[]]]; [|lra].
    apply in_map_iff in H. destruct H as [k [<- Hk]]. apply in_seq in Hk.
    assert (HS : 0 < INR (S m)) by (apply lt_0_INR; lia).
    assert (Hk' : INR k <= INR (S m)) by (apply le_INR; lia).
    pose proof (pos_INR k).
    set (q := INR k / INR (S m)).
    assert (Hq : q * INR (S m) = INR k) by (unfold q; field; lra).
    assert (Hq0 : 0 <= q <= 1) by (split; nra).
    replace (a + INR k * ((b - a) / INR (S m))) with ((1 - q) * a + q * b)
      by (unfold q; field; lra).
    split; nra.
Qed.

(** Every sample of the ramp lies between 0 and [max(current_velocity, 5)]. *)
Lemma distribution_bounds v n w :
  0 <= v -> In w (distribution_of v n) -> 0 <= w <= Rmax v VEL_THRESHOLD.
Proof.
  intros Hv H. unfold distribution_of, VEL_THRESHOLD in *.
  pose proof (Rmax_l v 5). pose proof (Rmax_r v 5).
  destruct (Rlt_dec v 5) as [Hlt|Hge].
  - apply in_app_or in H. destruct H as [H|H].
    + apply linspace_bounds in H; lra.
    + apply linspace_bounds in H; [|lra|lra].
      rewrite Rmax_left in H by lra. lra.
  - apply linspace_bounds in H; [|lra|lra].
    rewrite Rmax_left in H by lra. lra.
Qed.

Lemma skipn_nth_error {A} (l : list A) k a :
  nth_error l k = Some a -> skipn k l = a :: skipn (S k) l.
Proof.
  revert k. induction l as [|b l IH]; intros [|k] H; simpl in *;
    try discriminate.
  - now injection H as ->.
  - now apply IH.
Qed.

(** What the loop of [set_velocity_leading_to_stop_point] does to the
    store: an object is either left as it was, or it is one of the [n]
    objects the loop visits, keeps its position and holds a sample of the
    ramp as its speed. *)
Lemma assign_loop_frame (P : R -> Prop) h ws distribution distances
  wp_idx dist_idx n h' e :
  (forall w, In w distribution -> P w) ->
  assign_loop h ws distribution distances wp_idx dist_idx n = (h', e) ->
  forall r, h' r = h r \/
    (In r (firstn n (skipn wp_idx ws)) /\
     wp_position (h' r) = wp_position (h r) /\ P (wp_velocity (h' r))).
Proof.
  intros HP. revert h wp_idx dist_idx.
  induction n as [|n IH]; intros h wp_idx dist_idx Hrun r; simpl in Hrun.
  - injection Hrun as <- _. now left.
  - destruct (nth_error distances dist_idx) as [d|];
      [|injection Hrun as <- _; now left].
    destruct (nth_error distribution (py_int d)) as [v|] eqn:Ev;
      [|injection Hrun as <- _; now left].
    unfold set_waypoint_velocity in Hrun.
    destruct (nth_error ws wp_idx) as [r0|] eqn:Er0;
      [|injection Hrun as <- _; now left].
    specialize (IH _ _ _ Hrun r).
    clear Hrun. rename IH into Hrun. cbv beta in Hrun.
    rewrite (skipn_nth_error _ _ _ Er0). cbn [firstn In].
    destruct (Nat.eqb_spec r r0) as [Heq|Hne].
    + subst r0.
      right. destruct Hrun as [-> | [Hin [Hpos HPv]]].
      * split; [now left|]. split; [reflexivity|].
        simpl. apply HP. eapply nth_error_In. exact Ev.
      * split; [now right|]. split; [|exact HPv].
        rewrite Hpos. reflexivity.
    + destruct Hrun as [-> | [Hin [Hpos HPv]]].
      * now left.
      * right. split; [now right|]. split; [|exact HPv].
        rewrite Hpos. reflexivity.
Qed.

Lemma set_velocity_waypoints st s t :
  waypoints (fst (set_velocity_leading_to_stop_point st s t)) = waypoints st.
Proof.
  unfold set_velocity_leading_to_stop_point.
  destruct (waypoints st) eqn:E; [|exact E].
  destruct (distances_from _ _ _ _); [|exact E].
  destruct (assign_loop _ _ _ _ _ _ _). exact E.
Qed.

(** The working copy returned is the list of [self.waypoints] itself: the
    same waypoint objects. *)
Lemma set_velocity_returns_track st s t st' l :
  set_velocity_leading_to_stop_point st s t = (st', inr l) ->
  waypoints st = Some l.
Proof.
  unfold set_velocity_leading_to_stop_point.
  destruct (waypoints st) eqn:E; [|discriminate].
  destruct (distances_from _ _ _ _); [|discriminate].
  destruct (assign_loop _ _ _ _ _ _ _) as [h' [e|]]; [discriminate|].
  intros H. injection H as _ <-. reflexivity.
Qed.

(** *** The code run on the example tracks *)

Lemma track5_distance i :
  (i < 4)%nat -> distance track_point track5 i (S i) = Some 1.
Proof.
  intros H. destruct i as [|[|[|[|i]]]]; try lia;
    unfold distance; cbn -[dl IZR]; rewrite !dl_axis; cbn -[IZR];
    f_equal; lra.
Qed.

Lemma track5_total :
  total_distance [1; 1; 1; 1] = 4%nat.
Proof.
  unfold total_distance. cbn [fold_left].
  replace (0 + 1 + 1 + 1 + 1) with (IZR 4) by lra.
  now rewrite py_int_IZR.
Qed.

(** Speed 8, RED, vehicle at 0, stop line at 3: the ramp is
    [linspace(8, 0, 4)] and every waypoint 1..3 gets its sample 1, 16/3. *)
Lemma run_track5 l p :
  exists h,
    set_velocity_leading_to_stop_point
      (mkupdater (Some track5) track_point 8 l p) 0 3 =
    (mkupdater (Some track5) h 8 l p, inr track5) /\
    wp_velocity (h 1%nat) = 16 / 3 /\ wp_velocity (h 2%nat) = 16 / 3 /\
    wp_velocity (h 3%nat) = 16 / 3 /\
    (forall r, wp_position (h r) = wp_position (track_point r)).
Proof.
  unfold set_velocity_leading_to_stop_point.
  cbn [waypoints objects current_velocity Nat.sub distances_from].
  rewrite !track5_distance by lia. cbn [option_map].
  rewrite track5_total. unfold distribution_of, VEL_THRESHOLD.
  destruct (Rlt_dec 8 5) as [H|H]; [lra|].
  cbn -[IZR INR Rmult Rplus Rdiv Rminus py_int].
  rewrite py_int_IZR. cbn -[IZR INR Rmult Rplus Rdiv Rminus].
  eexists; split; [reflexivity|]. cbn -[IZR INR Rmult Rplus Rdiv Rminus].
  rewrite !INR_IZR_INZ. cbn -[IZR Rmult Rplus Rdiv Rminus].
  repeat split; try lra.
  intros r. cbn beta.
  destruct (Nat.eqb_spec r 3); [subst r; reflexivity|].
  destruct (Nat.eqb_spec r 2); [subst r; reflexivity|].
  destruct (Nat.eqb_spec r 1); [subst r; reflexivity|].
  reflexivity.
Qed.

Lemma origin_distance i :
  (i < 2)%nat -> distance origin_point track3 i (S i) = Some 0.
Proof.
  intros H. destruct i as [|[|i]]; try lia;
    unfold distance; cbn -[dl IZR]; rewrite !dl_refl; f_equal; lra.
Qed.

(** All waypoints at the origin, RED, vehicle at 0, stop line at 1: the
    summed distance truncates to 0, the ramp is empty and reading its first
    sample raises [IndexError]. *)
Lemma run_origin l p :
  set_velocity_leading_to_stop_point
    (mkupdater (Some track3) origin_point 8 l p) 0 1 =
  (mkupdater (Some track3) origin_point 8 l p, inl IndexError).
Proof.
  unfold set_velocity_leading_to_stop_point.
  cbn [waypoints objects current_velocity Nat.sub distances_from].
  rewrite !origin_distance by lia. cbn [option_map].
  assert (Ht : total_distance [0; 0] = 0%nat).
  { unfold total_distance. cbn [fold_left].
    replace (0 + 0 + 0) with (IZR 0) by lra. now rewrite py_int_IZR. }
  rewrite Ht.
  assert (Hd : distribution_of 8 0 = []).
  { unfold distribution_of. now destruct (Rlt_dec _ _). }
  rewrite Hd. cbn [assign_loop nth_error].
  destruct (py_int 0); reflexivity.
Qed.


Lemma gap4_distances :
  distances_from gap_point gap4 0 3 = Some [2; 1; 1].
Proof.
  cbn [distances_from]. unfold distance.
  cbn -[dl IZR]. rewrite !dl_axis. cbn -[IZR].
  repeat f_equal; lra.
Qed.

Lemma gap4_total : total_distance [2; 1; 1] = 4%nat.
Proof.
  unfold total_distance. cbn [fold_left].
  replace (0 + 2 + 1 + 1) with (IZR 4) by lra. now rewrite py_int_IZR.
Qed.

Lemma gap_ramp : distribution_of 6 4 = [6; 4; 2; 0].
Proof.
  unfold distribution_of, VEL_THRESHOLD.
  destruct (Rlt_dec 6 5) as [H|_]; [lra|].
  unfold linspace. cbn -[IZR INR Rmult Rplus Rdiv Rminus].
  rewrite !INR_IZR_INZ. cbn -[IZR Rmult Rplus Rdiv Rminus].
  repeat f_equal; lra.
Qed.

(** Speed 6, RED, vehicle at 0, stop line at 2 on the gap track: the ramp is
    [linspace(6, 0, 4)]; waypoint 1 (segment length 2) gets sample 2, speed
    2, and waypoint 2 (segment length 1) gets sample 1, speed 4. *)
Lemma run_gap6 :
  exists h,
    set_velocity_leading_to_stop_point st_gap6 0 2 =
    (set_objects st_gap6 h, inr gap4) /\
    wp_velocity (h 1%nat) = 2 /\ wp_velocity (h 2%nat) = 4.
Proof.
  unfold set_velocity_leading_to_stop_point.
  cbn [waypoints objects current_velocity Nat.sub st_gap6].
  rewrite gap4_distances, gap4_total, gap_ramp.
  cbn [assign_loop nth_error].
  replace 2 with (IZR 2) by reflexivity. replace 1 with (IZR 1) by reflexivity.
  rewrite !py_int_IZR. cbn.
  eexists; split; [reflexivity|]. cbn. split; reflexivity.
Qed.

Lemma origin_distances :
  distances_from origin_point track3 0 2 = Some [0; 0].
Proof.
  cbn [distances_from]. rewrite !origin_distance by lia. reflexivity.
Qed.

Lemma origin_total : total_distance [0; 0] = 0%nat.
Proof.
  unfold total_distance. cbn [fold_left].
  replace (0 + 0 + 0) with (IZR 0) by lra. now rewrite py_int_IZR.
Qed.

Lemma linspace_length a b n : length (linspace a b n) = n.
Proof.
  destruct n as [|[|m]]; [reflexivity|reflexivity|].
  unfold linspace. rewrite length_app, length_map, length_seq. simpl. lia.
Qed.

(** The samples of [np.linspace] with at least two points, by position. *)
Lemma linspace_nth a b m k :
  (k <= S m)%nat ->
  nth_error (linspace a b (S (S m))) k =
  Some (a + INR k * ((b - a) / INR (S m))).
Proof.
  intros Hk. unfold linspace.
  assert (HS : 0 < INR (S m)) by (apply lt_0_INR; lia).
  destruct (Nat.eq_dec k (S m)) as [->|Hne].
  - rewrite nth_error_app2 by (rewrite length_map, length_seq; lia).
    rewrite length_map, length_seq, Nat.sub_diag. cbn [nth_error].
    f_equal. field. lra.
  - rewrite nth_error_app1 by (rewrite length_map, length_seq; lia).
    rewrite nth_error_map, nth_error_seq.
    destruct (Nat.ltb_spec k (S m)); [reflexivity | lia].
Qed.

(** Two consecutive samples of [np.linspace] differ by the step. *)
Lemma linspace_step a b n k u w :
  nth_error (linspace a b n) k = Some u ->
  nth_error (linspace a b n) (S k) = Some w ->
  exists m, n = S (S m) /\ w = u + (b - a) / INR (S m).
Proof.
  intros Hu Hw.
  assert (Hlt : (S k < n)%nat).
  { rewrite <- (linspace_length a b n). apply nth_error_Some. congruence. }
  destruct n as [|[|m]]; [lia|lia|].
  exists m. split; [reflexivity|].
  rewrite linspace_nth in Hu, Hw by lia.
  assert (Eu : u = a + INR k * ((b - a) / INR (S m))) by congruence.
  assert (Ew : w = a + INR (S k) * ((b - a) / INR (S m))) by congruence.
  rewrite Eu, Ew, (S_INR k). ring.
Qed.

Lemma linspace_nonincreasing a b n k u w :
  b <= a ->
  nth_error (linspace a b n) k = Some u ->
  nth_error (linspace a b n) (S k) = Some w -> w <= u.
Proof.
  intros Hab Hu Hw.
  destruct (linspace_step a b n k u w Hu Hw) as [m [_ ->]].
  assert (Hi : 0 < / INR (S m)) by (apply Rinv_0_lt_compat, lt_0_INR; lia).
  unfold Rdiv. nra.
Qed.

Lemma linspace_nondecreasing a b n k u w :
  a <= b ->
  nth_error (linspace a b n) k = Some u ->
  nth_error (linspace a b n) (S k) = Some w -> u <= w.
Proof.
  intros Hab Hu Hw.
  destruct (linspace_step a b n k u w Hu Hw) as [m [_ ->]].
  assert (Hi : 0 < / INR (S m)) by (apply Rinv_0_lt_compat, lt_0_INR; lia).
  unfold Rdiv. nra.
Qed.

Lemma linspace_first a b n :
  (1 <= n)%nat -> nth_error (linspace a b n) 0 = Some a.
Proof.
  intros Hn. destruct n as [|[|m]]; [lia|reflexivity|].
  rewrite linspace_nth by lia. f_equal. simpl. ring.
Qed.

Lemma linspace_last a b n :
  (2 <= n)%nat -> nth_error (linspace a b n) (n - 1) = Some b.
Proof.
  intros Hn. destruct n as [|[|m]]; [lia|lia|].
  rewrite linspace_nth by lia. f_equal.
  replace (S (S m) - 1)%nat with (S m) by lia.
  assert (0 < INR (S m)) by (apply lt_0_INR; lia). field. lra.
Qed.

(** *** Edge behaviour of the loops *)

Lemma dist_loop_nonneg h ws wp1 i n dist d :
  0 <= dist -> dist_loop h ws wp1 i n dist = Some d -> 0 <= d.
Proof.
  revert wp1 i dist. induction n as [|n IH]; intros wp1 i dist Hd Hrun;
    cbn [dist_loop] in Hrun.
  - injection Hrun as <-. exact Hd.
  - destruct (nth_error ws wp1) as [r1|], (nth_error ws i) as [r2|];
      try discriminate.
    eapply IH; [|exact Hrun].
    pose proof (sqrt_pos ((x (wp_position (h r1)) - x (wp_position (h r2))) ^ 2 +
                          (y (wp_position (h r1)) - y (wp_position (h r2))) ^ 2 +
                          (z (wp_position (h r1)) - z (wp_position (h r2))) ^ 2)).
    unfold dl. lra.
Qed.

(** The loop of [distance] fails as soon as its last index is past the end. *)
Lemma dist_loop_none h ws wp1 i n dist :
  (0 < n)%nat -> (length ws < i + n)%nat -> dist_loop h ws wp1 i n dist = None.
Proof.
  revert wp1 i dist. induction n as [|n IH]; intros wp1 i dist Hn Hlen; [lia|].
  cbn [dist_loop].
  destruct (nth_error ws i) eqn:Ei.
  - assert (Hi : (i < length ws)%nat)
      by (apply nth_error_Some; congruence).
    destruct (nth_error ws wp1); [|reflexivity].
    apply IH; lia.
  - destruct (nth_error ws wp1); reflexivity.
Qed.

Lemma distance_none h ws i k :
  (i <= k)%nat -> (length ws <= k)%nat -> distance h ws i k = None.
Proof.
  intros Hik Hk. unfold distance. apply dist_loop_none; lia.
Qed.

Lemma distances_from_none h ws i n :
  (0 < n)%nat -> (length ws <= i + n)%nat -> distances_from h ws i n = None.
Proof.
  revert i. induction n as [|n IH]; intros i Hn Hlen; [lia|].
  cbn [distances_from].
  destruct (Nat.eq_dec n 0) as [->|Hn0].
  - rewrite distance_none by lia. reflexivity.
  - destruct (distance h ws i (S i)); [|reflexivity].
    rewrite IH by lia. reflexivity.
Qed.

Lemma assign_loop_error h ws distribution distances wp_idx dist_idx n h' e :
  assign_loop h ws distribution distances wp_idx dist_idx n = (h', Some e) ->
  e = IndexError.
Proof.
  revert h wp_idx dist_idx. induction n as [|n IH]; intros h wp_idx dist_idx Hrun;
    cbn [assign_loop] in Hrun; [discriminate|].
  destruct (nth_error distances dist_idx); [|congruence].
  destruct (nth_error distribution _); [|congruence].
  destruct (set_waypoint_velocity _ _ _ _); [|congruence].
  eapply IH. exact Hrun.
Qed.

(** On a loaded track [set_velocity_leading_to_stop_point] can only raise
    [IndexError]. *)
Lemma set_velocity_error st s t st' e :
  waypoints st <> None ->
  set_velocity_leading_to_stop_point st s t = (st', inl e) -> e = IndexError.
Proof.
  intros Hw. unfold set_velocity_leading_to_stop_point.
  destruct (waypoints st); [|contradiction].
  destruct (distances_from _ _ _ _); [|congruence].
  destruct (assign_loop _ _ _ _ _ _ _) as [h' [e'|]] eqn:Ea; [|discriminate].
  intros H. injection H as _ <-. eapply assign_loop_error. exact Ea.
Qed.

(** [set_velocity_leading_to_stop_point] moves no waypoint. *)
Lemma set_velocity_positions st s t r :
  wp_position (objects (fst (set_velocity_leading_to_stop_point st s t)) r) =
  wp_position (objects st r).
Proof.
  unfold set_velocity_leading_to_stop_point.
  destruct (waypoints st) as [ws|]; [|reflexivity].
  destruct (distances_from _ _ _ _) as [ds|]; [|reflexivity].
  destruct (assign_loop _ _ _ _ _ _ _) as [h' e] eqn:Ea. cbn [fst objects set_objects].
  apply (assign_loop_frame (fun _ => True)) with (r := r) in Ea; [|tauto].
  destruct Ea as [-> | [_ [-> _]]]; reflexivity.
Qed.

Lemma set_velocity_current_velocity st s t :
  current_velocity (fst (set_velocity_leading_to_stop_point st s t)) =
  current_velocity st.
Proof.
  unfold set_velocity_leading_to_stop_point.
  destruct (waypoints st); [|reflexivity].
  destruct (distances_from _ _ _ _); [|reflexivity].
  destruct (assign_loop _ _ _ _ _ _ _). reflexivity.
Qed.



(** A whole RED cycle on the straight track: vehicle at 0, stop line at 3. *)
Lemma pose_cb_red8 :
  exists h,
    pose_cb st_red8 pose0 0 3 =
    mkoutcome (mkupdater (Some track5) h 8 None (Some pose0))
      [StopLineWaypoint 3; FinalWaypoints (map h track5)] None /\
    wp_velocity (h 2%nat) = 16 / 3.
Proof.
  unfold pose_cb. cbn [waypoints st_red8].
  change (set_current_pose st_red8 pose0)
    with (mkupdater (Some track5) track_point 8 (Some 0%Z) (Some pose0)).
  destruct (run_track5 (Some 0%Z) (Some pose0)) as [h [E [_ [H2 _]]]].
  cbn [current_traffic_light red_or_yellow Z.eqb orb]. rewrite E.
  exists h. split; [reflexivity|exact H2].
Qed.

(** ** Claims *)

(** C10: [distance] is path-additive.  For indices [i <= j <= k] inside the
    list, [distance(w, i, i) = 0] and
    [distance(w, i, k) = distance(w, i, j) + distance(w, j, k)]. *)
Theorem distance_path_additive h ws i j k :
  (i <= j)%nat -> (j <= k)%nat -> (k < length ws)%nat ->
  distance h ws i i = Some 0 /\
  exists a b, distance h ws i j = Some a /\ distance h ws j k = Some b /\
              distance h ws i k = Some (a + b).
Proof.
  intros Hij Hjk Hk. split.
  - rewrite distance_step by lia. now rewrite Nat.sub_diag.
  - destruct (dist_loop_some h ws i (S i) (j - i) 0) as [a Ha]; try lia.
    destruct (dist_loop_some h ws j (S j) (k - j) 0) as [b Hb]; try lia.
    exists a, b. rewrite !distance_step by lia.
    split; [exact Ha|]. split; [exact Hb|].
    replace (k - i)%nat with ((j - i) + (k - j))%nat by lia.
    rewrite dist_loop_split, Ha.
    replace (i + (j - i))%nat with j by lia.
    rewrite dist_loop_acc, Hb. reflexivity.
Qed.

Lemma distance_path_additive_witness :
  ((0 <= 1)%nat /\ (1 <= 2)%nat /\ (2 < length track5)%nat) /\
  (distance track_point track5 0 0 = Some 0 /\
   exists a b, distance track_point track5 0 1 = Some a /\
               distance track_point track5 1 2 = Some b /\
               distance track_point track5 0 2 = Some (a + b)).
Proof.
  split; [repeat split; simpl; lia|].
  apply distance_path_additive; simpl; lia.
Defined.

(** C1: for a vehicle at speed 6 or more the ramp [linspace(v, 0, D)] the
    code builds is non-increasing and ends at 0, but on the gap track
    (x = 0, 2, 3, 4, speed 6, vehicle at 0, stop line at 2) the code writes
    speed 2 to waypoint 1 and speed 4 to the stop-line waypoint 2: the
    written speeds rise and the stop-line speed is not 0. *)
Theorem decelerate_speed_rises_at_stop_line :
  exists h,
    set_velocity_leading_to_stop_point st_gap6 0 2 =
    (set_objects st_gap6 h, inr gap4) /\
    wp_velocity (h 1%nat) = 2 /\ wp_velocity (h 2%nat) = 4 /\
    wp_velocity (h 1%nat) < wp_velocity (h 2%nat) /\
    wp_velocity (h 2%nat) <> 0 /\
    distances_from gap_point gap4 0 3 = Some [2; 1; 1] /\
    total_distance [2; 1; 1] = 4%nat /\
    distribution_of 6 4 = [6; 4; 2; 0].
Proof.
  destruct run_gap6 as [h [E [H1 H2]]].
  exists h. split; [exact E|]. split; [exact H1|]. split; [exact H2|].
  rewrite H1, H2. split; [lra|]. split; [lra|].
  split; [exact gap4_distances|]. split; [exact gap4_total | exact gap_ramp].
Qed.

(** C2: on the straight track (unit spacing, speed 8, vehicle at 0, stop
    line at 3) waypoints 2 and 3 are at cumulative distance 2 and 3 from the
    vehicle, whose ramp samples are 8/3 and 0; the code writes 16/3 to both:
    the sample indexed by the length of their own segment, 1. *)
Theorem decelerate_indexes_by_segment_length :
  exists h,
    set_velocity_leading_to_stop_point st_red8 0 3 =
    (set_objects st_red8 h, inr track5) /\
    wp_velocity (h 2%nat) = 16 / 3 /\ wp_velocity (h 3%nat) = 16 / 3 /\
    distance track_point track5 0 2 = Some 2 /\
    distance track_point track5 0 3 = Some 3 /\
    distance track_point track5 1 2 = Some 1 /\
    nth_error (distribution_of 8 4) 2 = Some (8 / 3) /\
    nth_error (distribution_of 8 4) 3 = Some 0.
Proof.
  destruct (run_track5 (Some 0%Z) None) as [h [E [_ [H2 [H3 _]]]]].
  exists h. split; [exact E|]. split; [exact H2|]. split; [exact H3|].
  unfold distribution_of, VEL_THRESHOLD.
  destruct (Rlt_dec 8 5) as [H|_]; [lra|].
  unfold distance. cbn -[dl IZR INR Rmult Rplus Rdiv Rminus].
  rewrite !dl_axis, !INR_IZR_INZ. cbn -[IZR Rmult Rplus Rdiv Rminus].
  repeat split; f_equal; lra.
Qed.

(** C3 (as stated): with every waypoint at the origin the summed distance
    truncates to 0, and the code raises [IndexError] reading the empty
    ramp. *)
Lemma zero_distance_raises_cex :
  distances_from origin_point track3 0 2 = Some [0; 0] /\
  total_distance [0; 0] = 0%nat /\
  snd (set_velocity_leading_to_stop_point st_origin 0 1) = inl IndexError.
Proof.
  split; [exact origin_distances|]. split; [exact origin_total|].
  unfold st_origin. rewrite run_origin. reflexivity.
Qed.

(** C3 (amended): when the stop line is ahead of the vehicle and the summed
    segment distances truncate to 0, the ramp is empty and
    [set_velocity_leading_to_stop_point] raises [IndexError]: there is no
    zero-speed fallback. *)
Theorem zero_distance_raises st ws s t ds :
  waypoints st = Some ws -> (s < t)%nat ->
  distances_from (objects st) ws s (S t - s) = Some ds ->
  total_distance ds = 0%nat ->
  snd (set_velocity_leading_to_stop_point st s t) = inl IndexError.
Proof.
  intros Hw Hst Hd Ht. unfold set_velocity_leading_to_stop_point.
  rewrite Hw, Hd, Ht.
  assert (Hz : distribution_of (current_velocity st) 0 = []).
  { unfold distribution_of. now destruct (Rlt_dec _ _). }
  rewrite Hz. replace (S t - S s)%nat with (S (t - S s)) by lia.
  cbn [assign_loop].
  destruct (nth_error ds 0) as [d|]; [|reflexivity].
  cbn [nth_error]. destruct (py_int d); reflexivity.
Qed.

Lemma zero_distance_raises_witness :
  (waypoints st_origin = Some track3 /\ (0 < 1)%nat /\
   distances_from (objects st_origin) track3 0 (S 1 - 0) = Some [0; 0] /\
   total_distance [0; 0] = 0%nat) /\
  snd (set_velocity_leading_to_stop_point st_origin 0 1) = inl IndexError.
Proof.
  split.
  - split; [reflexivity|]. split; [lia|].
    split; [exact origin_distances | exact origin_total].
  - apply (zero_distance_raises st_origin track3 0 1 [0; 0]);
      [reflexivity | lia | exact origin_distances | exact origin_total].
Defined.




(** C5: a RED cycle on the straight track changes the speed of the waypoint
    object at index 2 of [self.waypoints] from 10 to 16/3: the working copy
    [self.waypoints[:]] shares its waypoint objects with the canonical
    track. *)
Theorem decelerate_mutates_canonical_track :
  let o := pose_cb st_red8 pose0 0 3 in
  raised o = None /\
  waypoints (after o) = Some track5 /\
  waypoints st_red8 = Some track5 /\
  wp_velocity (objects st_red8 2%nat) = 10 /\
  wp_velocity (objects (after o) 2%nat) = 16 / 3.
Proof.
  destruct pose_cb_red8 as [h [E H2]]. cbv zeta. rewrite E.
  repeat split; [exact H2].
Qed.

(** C6: a pose received before the track is loaded makes [pose_cb] call
    [rospy.error], which raises [AttributeError]: nothing is published and
    the state is unchanged, but the handler ends in an exception instead of
    reporting the error. *)
Theorem pose_cb_unloaded_raises st p c t :
  waypoints st = None ->
  pose_cb st p c t = mkoutcome st [] (Some AttributeError).
Proof.
  intros Hw. unfold pose_cb. rewrite Hw. reflexivity.
Qed.

Lemma pose_cb_unloaded_raises_witness :
  waypoints st_unloaded = None /\
  pose_cb st_unloaded pose0 0 0 = mkoutcome st_unloaded [] (Some AttributeError).
Proof.
  split; [reflexivity|]. apply pose_cb_unloaded_raises. reflexivity.
Defined.

(** C7: when the stop-line index is behind the vehicle index, whatever the
    signal, the cycle completes and publishes the stop-line index and the
    window of [self.waypoints] from the vehicle index with the canonical
    speeds; no waypoint is changed. *)
Theorem stop_behind_vehicle_cruises st ws p c t :
  waypoints st = Some ws -> (t < c)%nat ->
  pose_cb st p c t =
  mkoutcome (set_current_traffic_light (set_current_pose st p) None)
    [StopLineWaypoint t;
     FinalWaypoints (map (objects st) (firstn LOOKAHEAD_WPS (skipn c ws)))]
    None.
Proof.
  intros Hw Htc. unfold pose_cb. rewrite Hw.
  destruct (red_or_yellow (current_traffic_light (set_current_pose st p)));
    [|reflexivity].
  unfold set_velocity_leading_to_stop_point.
  cbn [waypoints set_current_pose]. rewrite Hw.
  replace (S t - c)%nat with 0%nat by lia.
  replace (S t - S c)%nat with 0%nat by lia.
  reflexivity.
Qed.

Lemma stop_behind_vehicle_cruises_witness :
  (waypoints st_red8 = Some track5 /\ (1 < 2)%nat) /\
  pose_cb st_red8 pose0 2 1 =
  mkoutcome (set_current_traffic_light (set_current_pose st_red8 pose0) None)
    [StopLineWaypoint 1;
     FinalWaypoints (map (objects st_red8)
                       (firstn LOOKAHEAD_WPS (skipn 2 track5)))]
    None.
Proof.
  split; [split; [reflexivity | lia]|].
  apply stop_behind_vehicle_cruises; [reflexivity | lia].
Defined.

(** C8 (as stated): with every waypoint at the origin a RED cycle raises
    [IndexError] before the reset, so the RED reading stays stored and the
    next pose update, with no new reading, takes the DECELERATE branch
    again. *)
Lemma failed_cycle_keeps_signal_cex :
  let o := pose_cb st_origin pose0 0 1 in
  raised o = Some IndexError /\
  current_traffic_light (after o) = Some 0%Z /\
  red_or_yellow (current_traffic_light (after o)) = true /\
  raised (pose_cb (after o) pose0 0 1) = Some IndexError.
Proof.
  set (s1 := mkupdater (Some track3) origin_point 8 (Some 0%Z) (Some pose0)).
  assert (E1 : pose_cb st_origin pose0 0 1 =
               mkoutcome s1 [StopLineWaypoint 1] (Some IndexError)).
  { unfold pose_cb. cbn [waypoints st_origin].
    change (set_current_pose st_origin pose0) with s1.
    unfold s1. cbn [current_traffic_light red_or_yellow Z.eqb orb].
    rewrite run_origin. reflexivity. }
  assert (E2 : pose_cb s1 pose0 0 1 =
               mkoutcome s1 [StopLineWaypoint 1] (Some IndexError)).
  { unfold pose_cb. cbn [waypoints s1].
    change (set_current_pose s1 pose0) with s1.
    unfold s1. cbn [current_traffic_light red_or_yellow Z.eqb orb].
    rewrite run_origin. reflexivity. }
  cbv zeta. rewrite E1. cbn [after raised current_traffic_light s1].
  rewrite E2. repeat split.
Qed.

(** C8 (amended): after a pose update cycle that runs to completion, the
    stored signal is [None], so the next pose update with no new signal
    reading takes the CRUISE branch: it changes no waypoint and publishes
    the window of [self.waypoints] as they stand. *)
Theorem completed_cycle_consumes_signal st p c t p' c' t' :
  raised (pose_cb st p c t) = None ->
  let st' := after (pose_cb st p c t) in
  current_traffic_light st' = None /\
  exists ws, waypoints st' = Some ws /\
    pose_cb st' p' c' t' =
    mkoutcome (set_current_traffic_light (set_current_pose st' p') None)
      [StopLineWaypoint t';
       FinalWaypoints (map (objects st') (firstn LOOKAHEAD_WPS (skipn c' ws)))]
      None.
Proof.
  intros Hr st'. subst st'. unfold pose_cb in Hr |- *.
  destruct (waypoints st) as [ws|] eqn:Hw; [|discriminate].
  destruct (if red_or_yellow (current_traffic_light (set_current_pose st p))
            then set_velocity_leading_to_stop_point (set_current_pose st p) c t
            else (set_current_pose st p, inr ws))
    as [st2 [e|nw]] eqn:Hbr; [discriminate|].
  cbn [after]. split; [reflexivity|].
  assert (Hw2 : waypoints st2 = Some ws).
  { destruct (red_or_yellow _).
    - pose proof (set_velocity_waypoints (set_current_pose st p) c t) as Hs.
      rewrite Hbr in Hs. cbn in Hs. rewrite Hs. exact Hw.
    - injection Hbr as <- _. exact Hw. }
  exists ws. cbn [waypoints set_current_traffic_light]. split; [exact Hw2|].
  rewrite Hw2. reflexivity.
Qed.

Lemma completed_cycle_consumes_signal_witness :
  raised (pose_cb st_red8 pose0 0 3) = None /\
  (current_traffic_light (after (pose_cb st_red8 pose0 0 3)) = None /\
   exists ws, waypoints (after (pose_cb st_red8 pose0 0 3)) = Some ws /\
     pose_cb (after (pose_cb st_red8 pose0 0 3)) pose0 0 3 =
     mkoutcome (set_current_traffic_light
                  (set_current_pose (after (pose_cb st_red8 pose0 0 3)) pose0) None)
       [StopLineWaypoint 3;
        FinalWaypoints (map (objects (after (pose_cb st_red8 pose0 0 3)))
                          (firstn LOOKAHEAD_WPS (skipn 0 ws)))]
       None).
Proof.
  assert (Hr : raised (pose_cb st_red8 pose0 0 3) = None).
  { destruct pose_cb_red8 as [h [E _]]. rewrite E. reflexivity. }
  split; [exact Hr|].
  exact (completed_cycle_consumes_signal st_red8 pose0 0 3 pose0 0 3 Hr).
Defined.

(** C9: the window published by a cycle that completes has
    [min(LOOKAHEAD_WPS, len(track) - vehicle_index)] waypoints, at most
    [LOOKAHEAD_WPS]. *)
Theorem window_length_bound st ws p c t :
  waypoints st = Some ws -> (c < length ws)%nat ->
  raised (pose_cb st p c t) = None ->
  exists lane,
    published (pose_cb st p c t) = [StopLineWaypoint t; FinalWaypoints lane] /\
    length lane = Nat.min LOOKAHEAD_WPS (length ws - c) /\
    (length lane <= LOOKAHEAD_WPS)%nat.
Proof.
  intros Hw Hc Hr. unfold pose_cb in Hr |- *. rewrite Hw in Hr |- *.
  destruct (if red_or_yellow (current_traffic_light (set_current_pose st p))
            then set_velocity_leading_to_stop_point (set_current_pose st p) c t
            else (set_current_pose st p, inr ws))
    as [st2 [e|nw]] eqn:Hbr; [discriminate|].
  assert (Hnw : nw = ws).
  { destruct (red_or_yellow _).
    - apply set_velocity_returns_track in Hbr. cbn in Hbr. congruence.
    - injection Hbr as _ <-. reflexivity. }
  subst nw. eexists. split; [reflexivity|].
  rewrite length_map, length_firstn, length_skipn.
  split; [reflexivity | lia].
Qed.

Lemma window_length_bound_witness :
  (waypoints st_red8 = Some track5 /\ (0 < length track5)%nat /\
   raised (pose_cb st_red8 pose0 0 3) = None) /\
  exists lane,
    published (pose_cb st_red8 pose0 0 3) = [StopLineWaypoint 3; FinalWaypoints lane] /\
    length lane = Nat.min LOOKAHEAD_WPS (length track5 - 0) /\
    (length lane <= LOOKAHEAD_WPS)%nat.
Proof.
  assert (Hr : raised (pose_cb st_red8 pose0 0 3) = None).
  { destruct pose_cb_red8 as [h [E _]]. rewrite E. reflexivity. }
  split; [split; [reflexivity|]; split; [simpl; lia | exact Hr]|].
  apply (window_length_bound st_red8 track5 pose0 0 3);
    [reflexivity | simpl; lia | exact Hr].
Defined.

(** ** Further properties of the node *)

(** [distance] never returns a negative length. *)
Theorem distance_nonneg h ws i k d :
  distance h ws i k = Some d -> 0 <= d.
Proof.
  unfold distance. apply dist_loop_nonneg. lra.
Qed.

Lemma distance_nonneg_witness :
  distance track_point track5 0 1 = Some 1 /\ 0 <= 1.
Proof.
  split; [apply track5_distance; lia|].
  apply (distance_nonneg track_point track5 0 1 1).
  apply track5_distance. lia.
Defined.

(** When the end index is before the start index the loop of [distance]
    runs no iteration: the result is 0 and the list is not read. *)
Theorem distance_reversed_range h ws i k :
  (k < i)%nat -> distance h ws i k = Some 0.
Proof.
  intros Hki. unfold distance.
  replace (S k - i)%nat with 0%nat by lia. reflexivity.
Qed.

Lemma distance_reversed_range_witness :
  (1 < 7)%nat /\ distance track_point track5 7 1 = Some 0.
Proof.
  split; [lia|]. apply distance_reversed_range. lia.
Defined.

(** For [i <= k], [distance(waypoints, i, k)] raises [IndexError] exactly
    when [k] is past the end of the list. *)
Theorem distance_index_error h ws i k :
  (i <= k)%nat -> (distance h ws i k = None <-> (length ws <= k)%nat).
Proof.
  intros Hik. split.
  - intros Hn. destruct (Nat.le_gt_cases (length ws) k) as [Hle|Hgt];
      [exact Hle|].
    destruct (dist_loop_some h ws i i (S k - i) 0) as [d Hd]; [lia|lia|].
    unfold distance in Hn. congruence.
  - intros Hk. apply distance_none; assumption.
Qed.

Lemma distance_index_error_witness :
  (2 <= 5)%nat /\
  (distance track_point track5 2 5 = None <-> (length track5 <= 5)%nat).
Proof.
  split; [lia|]. apply distance_index_error. lia.
Defined.

(** [distance(waypoints, i, i+1)] is the Euclidean length of the segment
    between the two waypoints. *)
Theorem distance_single_segment h ws i r1 r2 :
  nth_error ws i = Some r1 -> nth_error ws (S i) = Some r2 ->
  distance h ws i (S i) =
  Some (dl (wp_position (h r1)) (wp_position (h r2))).
Proof.
  intros H1 H2. unfold distance.
  replace (S (S i) - i)%nat with 2%nat by lia.
  cbn [dist_loop]. rewrite H1, H2. rewrite dl_refl. f_equal. ring.
Qed.

Lemma distance_single_segment_witness :
  (nth_error track5 0 = Some 0%nat /\ nth_error track5 1 = Some 1%nat) /\
  distance track_point track5 0 1 =
  Some (dl (wp_position (track_point 0)) (wp_position (track_point 1))).
Proof.
  split; [split; reflexivity|].
  apply distance_single_segment; reflexivity.
Defined.

(** When [current_velocity >= 5] and the truncated distance is at least 2,
    the ramp has one sample per distance unit, starts at [current_velocity],
    ends at 0 and never rises from one sample to the next. *)
Theorem fast_ramp_decreasing v n :
  VEL_THRESHOLD <= v -> (2 <= n)%nat ->
  length (distribution_of v n) = n /\
  nth_error (distribution_of v n) 0 = Some v /\
  nth_error (distribution_of v n) (n - 1) = Some 0 /\
  (forall k u w, nth_error (distribution_of v n) k = Some u ->
                 nth_error (distribution_of v n) (S k) = Some w -> w <= u).
Proof.
  intros Hv Hn. unfold distribution_of.
  destruct (Rlt_dec v VEL_THRESHOLD) as [H|_]; [lra|].
  unfold VEL_THRESHOLD in Hv.
  split; [apply linspace_length|].
  split; [apply linspace_first; lia|].
  split; [apply linspace_last; lia|].
  intros k u w. apply linspace_nonincreasing. lra.
Qed.

Lemma fast_ramp_decreasing_witness :
  (VEL_THRESHOLD <= 8 /\ (2 <= 4)%nat) /\
  (length (distribution_of 8 4) = 4%nat /\
   nth_error (distribution_of 8 4) 0 = Some 8 /\
   nth_error (distribution_of 8 4) (4 - 1) = Some 0 /\
   (forall k u w, nth_error (distribution_of 8 4) k = Some u ->
                  nth_error (distribution_of 8 4) (S k) = Some w -> w <= u)).
Proof.
  assert (H : VEL_THRESHOLD <= 8) by (unfold VEL_THRESHOLD; lra).
  split; [split; [exact H | lia]|].
  apply fast_ramp_decreasing; [exact H | lia].
Defined.

(** When [current_velocity < 5] and the truncated distance [n] is at least
    2, the ramp has [2 n] samples: it rises from [current_velocity] to 5 over
    the first [n] and falls from 5 to 0 over the last [n]. *)
Theorem slow_ramp_rise_then_fall v n :
  v < VEL_THRESHOLD -> (2 <= n)%nat ->
  length (distribution_of v n) = (2 * n)%nat /\
  nth_error (distribution_of v n) 0 = Some v /\
  nth_error (distribution_of v n) (n - 1) = Some VEL_THRESHOLD /\
  nth_error (distribution_of v n) n = Some VEL_THRESHOLD /\
  nth_error (distribution_of v n) (2 * n - 1) = Some 0 /\
  (forall k u w, (S k < n)%nat ->
     nth_error (distribution_of v n) k = Some u ->
     nth_error (distribution_of v n) (S k) = Some w -> u <= w) /\
  (forall k u w, (n <= k)%nat ->
     nth_error (distribution_of v n) k = Some u ->
     nth_error (distribution_of v n) (S k) = Some w -> w <= u).
Proof.
  intros Hv Hn. unfold distribution_of.
  destruct (Rlt_dec v VEL_THRESHOLD) as [_|H]; [|contradiction].
  assert (L1 := linspace_length v VEL_THRESHOLD n).
  assert (L2 := linspace_length VEL_THRESHOLD 0 n).
  assert (H5 : 0 <= VEL_THRESHOLD) by (unfold VEL_THRESHOLD; lra).
  split; [rewrite length_app; lia|].
  split; [rewrite nth_error_app1 by lia; apply linspace_first; lia|].
  split; [rewrite nth_error_app1 by lia; apply linspace_last; lia|].
  split.
  { rewrite nth_error_app2 by lia. rewrite L1, Nat.sub_diag.
    apply linspace_first. lia. }
  split.
  { rewrite nth_error_app2 by lia. rewrite L1.
    replace (2 * n - 1 - n)%nat with (n - 1)%nat by lia.
    apply linspace_last. lia. }
  split.
  - intros k u w Hk. rewrite !nth_error_app1 by lia.
    apply linspace_nondecreasing. lra.
  - intros k u w Hk. rewrite !nth_error_app2 by lia. rewrite L1.
    replace (S k - n)%nat with (S (k - n)) by lia.
    apply linspace_nonincreasing. lra.
Qed.

Lemma slow_ramp_rise_then_fall_witness :
  (0 < VEL_THRESHOLD /\ (2 <= 4)%nat) /\
  (length (distribution_of 0 4) = (2 * 4)%nat /\
   nth_error (distribution_of 0 4) 0 = Some 0 /\
   nth_error (distribution_of 0 4) (4 - 1) = Some VEL_THRESHOLD /\
   nth_error (distribution_of 0 4) 4 = Some VEL_THRESHOLD /\
   nth_error (distribution_of 0 4) (2 * 4 - 1) = Some 0 /\
   (forall k u w, (S k < 4)%nat ->
      nth_error (distribution_of 0 4) k = Some u ->
      nth_error (distribution_of 0 4) (S k) = Some w -> u <= w) /\
   (forall k u w, (4 <= k)%nat ->
      nth_error (distribution_of 0 4) k = Some u ->
      nth_error (distribution_of 0 4) (S k) = Some w -> w <= u)).
Proof.
  assert (H : 0 < VEL_THRESHOLD) by (unfold VEL_THRESHOLD; lra).
  split; [split; [exact H | lia]|].
  apply slow_ramp_rise_then_fall; [exact H | lia].
Defined.

(** [set_velocity_leading_to_stop_point] changes only waypoint objects: the
    track list, the last reported speed, the stored signal and the pose stay
    as they are, whether it completes or raises. *)
Theorem set_velocity_only_writes_objects st s t :
  let st' := fst (set_velocity_leading_to_stop_point st s t) in
  waypoints st' = waypoints st /\
  current_velocity st' = current_velocity st /\
  current_traffic_light st' = current_traffic_light st /\
  current_pose st' = current_pose st.
Proof.
  cbv zeta. unfold set_velocity_leading_to_stop_point.
  destruct (waypoints st) eqn:Hw; [|repeat split; assumption].
  destruct (distances_from _ _ _ _); [|repeat split; assumption].
  destruct (assign_loop _ _ _ _ _ _ _). cbn. repeat split; assumption.
Qed.

(** With the stop line at the last waypoint of the track (or past it), the
    list comprehension computing [distances] reads one waypoint past the end
    and raises [IndexError] before any speed is written. *)
Theorem stop_at_track_end_raises st ws s t :
  waypoints st = Some ws -> (s <= t)%nat -> (length ws <= S t)%nat ->
  set_velocity_leading_to_stop_point st s t = (st, inl IndexError).
Proof.
  intros Hw Hst Hlen. unfold set_velocity_leading_to_stop_point.
  rewrite Hw. rewrite distances_from_none by lia. reflexivity.
Qed.

Lemma stop_at_track_end_raises_witness :
  (waypoints st_red8 = Some track5 /\ (0 <= 4)%nat /\ (length track5 <= 5)%nat) /\
  set_velocity_leading_to_stop_point st_red8 0 4 = (st_red8, inl IndexError).
Proof.
  split; [split; [reflexivity | split; simpl; lia]|].
  apply (stop_at_track_end_raises st_red8 track5); [reflexivity | lia | simpl; lia].
Defined.

(** With the stop line at the vehicle's own waypoint (not the last one of
    the track), the computation completes and writes no speed. *)
Theorem stop_at_vehicle_writes_nothing st ws s :
  waypoints st = Some ws -> (S s < length ws)%nat ->
  set_velocity_leading_to_stop_point st s s = (st, inr ws).
Proof.
  intros Hw Hs. unfold set_velocity_leading_to_stop_point. rewrite Hw.
  replace (S s - s)%nat with 1%nat by lia.
  cbn [distances_from].
  destruct (dist_loop_some (objects st) ws s s (S (S s) - s) 0)
    as [d Hd]; [lia|lia|].
  unfold distance. rewrite Hd. cbn [option_map].
  rewrite Nat.sub_diag. cbn [assign_loop].
  destruct st. reflexivity.
Qed.

Lemma stop_at_vehicle_writes_nothing_witness :
  (waypoints st_red8 = Some track5 /\ (2 < length track5)%nat) /\
  set_velocity_leading_to_stop_point st_red8 1 1 = (st_red8, inr track5).
Proof.
  split; [split; [reflexivity | simpl; lia]|].
  apply stop_at_vehicle_writes_nothing; [reflexivity | simpl; lia].
Defined.

(** On a loaded track every pose update publishes the stop-line waypoint
    index first, also when the deceleration then raises. *)
Theorem pose_cb_publishes_stop_line_first st ws p c t :
  waypoints st = Some ws ->
  exists rest, published (pose_cb st p c t) = StopLineWaypoint t :: rest.
Proof.
  intros Hw. unfold pose_cb. rewrite Hw.
  destruct (if red_or_yellow _ then _ else _) as [st2 [e|nw]];
    cbn [published]; eexists; reflexivity.
Qed.

Lemma pose_cb_publishes_stop_line_first_witness :
  waypoints st_origin = Some track3 /\
  exists rest, published (pose_cb st_origin pose0 0 1) = StopLineWaypoint 1 :: rest.
Proof.
  split; [reflexivity|].
  apply (pose_cb_publishes_stop_line_first st_origin track3). reflexivity.
Defined.

(** CRUISE: when the stored signal is [None] or a state other than 0 (RED)
    and 1 (YELLOW), a pose update writes no speed, publishes the stop-line
    index and the window of [self.waypoints] from the vehicle index with
    their current speeds, and clears the stored signal. *)
Theorem pose_cb_cruise st ws p c t :
  waypoints st = Some ws ->
  red_or_yellow (current_traffic_light st) = false ->
  pose_cb st p c t =
  mkoutcome (set_current_traffic_light (set_current_pose st p) None)
    [StopLineWaypoint t;
     FinalWaypoints (map (objects st) (firstn LOOKAHEAD_WPS (skipn c ws)))]
    None.
Proof.
  intros Hw Hl. unfold pose_cb. rewrite Hw.
  cbn [current_traffic_light set_current_pose]. rewrite Hl. reflexivity.
Qed.

Lemma pose_cb_cruise_witness :
  (waypoints (upcoming_traffic_light_cb st_red8 2) = Some track5 /\
   red_or_yellow (current_traffic_light (upcoming_traffic_light_cb st_red8 2)) = false) /\
  pose_cb (upcoming_traffic_light_cb st_red8 2) pose0 0 3 =
  mkoutcome (set_current_traffic_light
               (set_current_pose (upcoming_traffic_light_cb st_red8 2) pose0) None)
    [StopLineWaypoint 3;
     FinalWaypoints (map (objects (upcoming_traffic_light_cb st_red8 2))
                       (firstn LOOKAHEAD_WPS (skipn 0 track5)))]
    None.
Proof.
  split; [split; reflexivity|].
  apply pose_cb_cruise; reflexivity.
Defined.

(** A pose update never changes the track list nor the last reported
    speed. *)
Theorem pose_cb_keeps_track_and_speed st p c t :
  waypoints (after (pose_cb st p c t)) = waypoints st /\
  current_velocity (after (pose_cb st p c t)) = current_velocity st.
Proof.
  unfold pose_cb. destruct (waypoints st) as [ws|] eqn:Hw;
    [|cbn; split; [exact Hw | reflexivity]].
  destruct (red_or_yellow _).
  - pose proof (set_velocity_waypoints (set_current_pose st p) c t) as H1.
    pose proof (set_velocity_current_velocity (set_current_pose st p) c t) as H2.
    destruct (set_velocity_leading_to_stop_point (set_current_pose st p) c t)
      as [st2 [e|nw]]; cbn in H1, H2 |- *; split; congruence.
  - cbn. split; congruence.
Qed.

(** The window published by a completed cycle holds the waypoint objects of
    [self.waypoints] from the vehicle index, with the speeds they have after
    the cycle and the positions they had before it. *)
Theorem window_is_track_slice st ws p c t :
  waypoints st = Some ws -> raised (pose_cb st p c t) = None ->
  published (pose_cb st p c t) =
    [StopLineWaypoint t;
     FinalWaypoints (map (objects (after (pose_cb st p c t)))
                       (firstn LOOKAHEAD_WPS (skipn c ws)))] /\
  (forall r, wp_position (objects (after (pose_cb st p c t)) r) =
             wp_position (objects st r)).
Proof.
  intros Hw Hr. unfold pose_cb in Hr |- *. rewrite Hw in Hr |- *.
  pose proof (set_velocity_positions (set_current_pose st p) c t) as Hpos.
  pose proof (set_velocity_returns_track (set_current_pose st p) c t) as Hret.
  destruct (red_or_yellow _).
  - destruct (set_velocity_leading_to_stop_point (set_current_pose st p) c t)
      as [st2 [e|nw]]; [discriminate|].
    specialize (Hret st2 nw eq_refl). cbn in Hret, Hpos |- *.
    assert (nw = ws) by congruence. subst nw.
    split; [reflexivity | exact Hpos].
  - cbn. split; reflexivity.
Qed.

Lemma window_is_track_slice_witness :
  (waypoints st_red8 = Some track5 /\ raised (pose_cb st_red8 pose0 0 3) = None) /\
  (published (pose_cb st_red8 pose0 0 3) =
    [StopLineWaypoint 3;
     FinalWaypoints (map (objects (after (pose_cb st_red8 pose0 0 3)))
                       (firstn LOOKAHEAD_WPS (skipn 0 track5)))] /\
   (forall r, wp_position (objects (after (pose_cb st_red8 pose0 0 3)) r) =
              wp_position (objects st_red8 r))).
Proof.
  assert (Hr : raised (pose_cb st_red8 pose0 0 3) = None).
  { destruct pose_cb_red8 as [h [E _]]. rewrite E. reflexivity. }
  split; [split; [reflexivity | exact Hr]|].
  apply window_is_track_slice; [reflexivity | exact Hr].
Defined.

